(** * migrator: rendering of ALTER TABLE clause lists (table_command.go)

    A shallow embedding of [table_command.go]: the twelve command types with
    their [toSQL] methods, the slice type [TableCommands] with its [toSQL],
    and the parts of Go's [strings] and [fmt] packages that they call.

    Go strings are byte sequences; they are modelled by [string], whose
    characters are the bytes.  A method call on a nil interface value panics in
    Go; the embedding keeps this visible in the monad [go].

    The properties of the text of a clause are stated for columns that are nil
    or hold a value on which [buildRow] returns ([columnType]).  The module
    [Full] has the same methods over all interface values, whose [buildRow] may
    panic ([columnInterface]); the panics are settled there. *)

From Stdlib Require Import String Ascii List Bool Arith Lia.
Import ListNotations.

Open Scope string_scope.

(** ** Outcome of a Go call: a returned value, or a run-time panic *)

Inductive go (A : Type) : Type :=
| Return (a : A)
| Panic.

Arguments Return {A} a.
Arguments Panic {A}.

Definition bind {A B : Type} (m : go A) (k : A -> go B) : go B :=
  match m with
  | Return a => k a
  | Panic => Panic
  end.

Notation "x <- m ;; k" := (bind m (fun x => k))
  (at level 61, m at next level, right associativity).

(** [for _, x := range xs { s = body(s, x) }] *)
Fixpoint for_range {A S : Type} (xs : list A) (body : S -> A -> go S) (s : S)
  : go S :=
  match xs with
  | [] => Return s
  | x :: xs' => s' <- body s x ;; for_range xs' body s'
  end.

(** ** Package strings *)

(** [strings.Join]: nothing for no element, the element itself for one,
    otherwise the first element followed, for each further one, by the
    separator and the element (the two [WriteString] calls of the loop). *)
Definition write_next (sep : string) (b s : string) : string :=
  (b ++ sep) ++ s.

Definition Join (elems : list string) (sep : string) : string :=
  match elems with
  | [] => ""
  | [e] => e
  | e :: rest => fold_left (write_next sep) rest e
  end.

(** [strings.HasPrefix]. *)
Fixpoint HasPrefix (s prefix : string) {struct prefix} : bool :=
  match prefix, s with
  | EmptyString, _ => true
  | String _ _, EmptyString => false
  | String p prefix', String c s' => Ascii.eqb c p && HasPrefix s' prefix'
  end.

(** [strings.Contains]: [substr] starts at some position of [s]. *)
Fixpoint Contains (s substr : string) : bool :=
  HasPrefix s substr ||
  match s with
  | EmptyString => false
  | String _ s' => Contains s' substr
  end.

(** [strings.HasSuffix]. *)
Definition HasSuffix (s suffix : string) : bool :=
  (String.length suffix <=? String.length s)%nat &&
  (substring (String.length s - String.length suffix) (String.length suffix) s
   =? suffix).

(** ** Package fmt *)

(** [fmt.Sprintf] for the formats of this file, whose only verb is [%s], with
    string operands.  A verb with no operand left prints [%!s(MISSING)];
    operands left at the end of the format are listed after [%!(EXTRA], with
    their type, here written [string].  Every call below gives as many operands
    as its format has verbs. *)
Fixpoint Sprintf (format : string) (a : list string) : string :=
  match format with
  | EmptyString =>
      match a with
      | [] => ""
      | _ :: _ => "%!(EXTRA " ++ Join (map (fun s => "string=" ++ s) a) ", " ++ ")"
      end
  | String "%" (String "s" rest) =>
      match a with
      | x :: a' => x ++ Sprintf rest a'
      | [] => "%!s(MISSING)" ++ Sprintf rest []
      end
  | String ch rest => String ch (Sprintf rest a)
  end.

(** ** The collaborators declared outside this file *)

(** Modelled from the spec: the interface [columnType] is declared outside
    this file, which calls its method [buildRow() string] and compares its
    values with [nil].  Section 3: a column definition is "any value that can
    render itself into a SQL column-definition string", "an opaque
    capability"; section 5: the renders are "pure value-to-string functions".
    A non-nil interface value holds a value of some implementing type with
    that type's method, a function that returns a string for every value. *)
Module columnType.

Record impl : Type := Impl {
  self : Type;
  value : self;
  method_buildRow : self -> string
}.

(** An interface value: [nil], or an implementation. *)
Definition t : Type := option impl.

Definition nil : t := None.

Definition is_nil (c : t) : bool :=
  match c with
  | None => true
  | Some _ => false
  end.

(** [c.buildRow()]: a nil pointer dereference on [nil]. *)
Definition buildRow (c : t) : go string :=
  match c with
  | None => Panic
  | Some i => Return (method_buildRow i (value i))
  end.

End columnType.

(** Modelled from the spec: the struct [Foreign] is declared outside this
    file, which calls its method [render() string] and reads none of its
    fields.  Section 3: a foreign key descriptor is "any value that can render
    itself into a SQL foreign-key-constraint string".  A descriptor is a value
    of some type with that type's method, a function of the value. *)
Module Foreign.

Record t : Type := mk {
  self : Type;
  value : self;
  method_render : self -> string
}.

Definition render (f : t) : string := method_render f (value f).

End Foreign.

(** ** The command types *)

Module AddColumnCommand.

Record t : Type := mk {
  Name : string;
  Column : columnType.t;
  After : string;
  First : bool
}.

Definition toSQL (c : t) : go string :=
  if columnType.is_nil (Column c) then Return ""
  else
    definition <- columnType.buildRow (Column c) ;;
    if (Name c =? "") || (definition =? "") then Return ""
    else
      let sql := "ADD COLUMN `" ++ Name c ++ "` " ++ definition in
      let sql :=
        if negb (After c =? "") then sql ++ " AFTER " ++ After c
        else if First c then sql ++ " FIRST"
        else sql in
      Return sql.

End AddColumnCommand.

Module RenameColumnCommand.

Record t : Type := mk {
  Old : string;
  New : string
}.

Definition toSQL (c : t) : go string :=
  if (Old c =? "") || (New c =? "") then Return ""
  else Return (Sprintf "RENAME COLUMN `%s` TO `%s`" [Old c; New c]).

End RenameColumnCommand.

Module ModifyColumnCommand.

Record t : Type := mk {
  Name : string;
  Column : columnType.t
}.

Definition toSQL (c : t) : go string :=
  if columnType.is_nil (Column c) then Return ""
  else
    definition <- columnType.buildRow (Column c) ;;
    if (Name c =? "") || (definition =? "") then Return ""
    else Return (Sprintf "MODIFY `%s` %s" [Name c; definition]).

End ModifyColumnCommand.

Module ChangeColumnCommand.

Record t : Type := mk {
  From : string;
  To : string;
  Column : columnType.t
}.

(** The definition is built a second time for the result. *)
Definition toSQL (c : t) : go string :=
  if columnType.is_nil (Column c) then Return ""
  else
    definition <- columnType.buildRow (Column c) ;;
    if (From c =? "") || (To c =? "") || (definition =? "") then Return ""
    else
      again <- columnType.buildRow (Column c) ;;
      Return (Sprintf "CHANGE `%s` `%s` %s" [From c; To c; again]).

End ChangeColumnCommand.

Module DropColumnCommand.

Definition t : Type := string.

Definition toSQL (c : t) : go string :=
  if c =? "" then Return ""
  else Return (Sprintf "DROP COLUMN `%s`" [c]).

End DropColumnCommand.

Module AddIndexCommand.

Record t : Type := mk {
  Name : string;
  Columns : list string
}.

Definition toSQL (c : t) : go string :=
  if (Name c =? "") || (List.length (Columns c) =? 0)%nat then Return ""
  else Return (Sprintf "ADD KEY `%s` (`%s`)" [Name c; Join (Columns c) "`, `"]).

End AddIndexCommand.

Module DropIndexCommand.

Definition t : Type := string.

Definition toSQL (c : t) : go string :=
  if c =? "" then Return ""
  else Return (Sprintf "DROP KEY `%s`" [c]).

End DropIndexCommand.

Module AddForeignCommand.

Record t : Type := mk {
  Foreign : Foreign.t
}.

(** [render] is called for the test and again for the result. *)
Definition toSQL (c : t) : go string :=
  if Foreign.render (Foreign c) =? "" then Return ""
  else Return ("ADD " ++ Foreign.render (Foreign c)).

End AddForeignCommand.

Module DropForeignCommand.

Definition t : Type := string.

Definition toSQL (c : t) : go string :=
  if c =? "" then Return ""
  else Return (Sprintf "DROP FOREIGN KEY `%s`" [c]).

End DropForeignCommand.

Module AddUniqueIndexCommand.

Record t : Type := mk {
  Key : string;
  Columns : list string
}.

Definition toSQL (c : t) : go string :=
  if (Key c =? "") || (List.length (Columns c) =? 0)%nat then Return ""
  else
    Return (Sprintf "ADD UNIQUE KEY `%s` (`%s`)" [Key c; Join (Columns c) "`, `"]).

End AddUniqueIndexCommand.

Module AddPrimaryIndexCommand.

Definition t : Type := string.

Definition toSQL (c : t) : go string :=
  if c =? "" then Return ""
  else Return (Sprintf "ADD PRIMARY KEY (`%s`)" [c]).

End AddPrimaryIndexCommand.

Module DropPrimaryIndexCommand.

Inductive t : Type := mk.

Definition toSQL (c : t) : go string := Return "DROP PRIMARY KEY".

End DropPrimaryIndexCommand.

(** ** The interface [command] and the slice [TableCommands] *)

(** Modelled from the spec: the interface [command] is declared outside this
    file.  Section 3: a command is "a polymorphic value, one of the variants
    listed below"; section 9: "a closed variant set with a render operation per
    variant".  A [command] holds a value of one of the twelve types above, the
    types of this file with the method [toSQL]. *)
Inductive command : Type :=
| AddColumn (c : AddColumnCommand.t)
| RenameColumn (c : RenameColumnCommand.t)
| ModifyColumn (c : ModifyColumnCommand.t)
| ChangeColumn (c : ChangeColumnCommand.t)
| DropColumn (c : DropColumnCommand.t)
| AddIndex (c : AddIndexCommand.t)
| DropIndex (c : DropIndexCommand.t)
| AddForeign (c : AddForeignCommand.t)
| DropForeign (c : DropForeignCommand.t)
| AddUniqueIndex (c : AddUniqueIndexCommand.t)
| AddPrimaryIndex (c : AddPrimaryIndexCommand.t)
| DropPrimaryIndex (c : DropPrimaryIndexCommand.t).

(** [c.toSQL()] on an interface value: the method of the type it holds. *)
Definition toSQL (c : command) : go string :=
  match c with
  | AddColumn c => AddColumnCommand.toSQL c
  | RenameColumn c => RenameColumnCommand.toSQL c
  | ModifyColumn c => ModifyColumnCommand.toSQL c
  | ChangeColumn c => ChangeColumnCommand.toSQL c
  | DropColumn c => DropColumnCommand.toSQL c
  | AddIndex c => AddIndexCommand.toSQL c
  | DropIndex c => DropIndexCommand.toSQL c
  | AddForeign c => AddForeignCommand.toSQL c
  | DropForeign c => DropForeignCommand.toSQL c
  | AddUniqueIndex c => AddUniqueIndexCommand.toSQL c
  | AddPrimaryIndex c => AddPrimaryIndexCommand.toSQL c
  | DropPrimaryIndex c => DropPrimaryIndexCommand.toSQL c
  end.

Module TableCommands.

Definition t : Type := list command.

Definition toSQL (tc : t) : go string :=
  rows <- for_range tc
            (fun rows c => row <- toSQL c ;; Return (rows ++ [row])%list)
            [] ;;
  Return (Join rows ", ").

End TableCommands.

(** ** Sample values *)

(** A column definition given by its text. *)
Definition rawColumn (definition : string) : columnType.t :=
  Some (columnType.Impl string definition (fun s => s)).

(** A foreign key descriptor given by its text. *)
Definition rawForeign (clause : string) : Foreign.t :=
  Foreign.mk string clause (fun s => s).

Definition scenario_6 : TableCommands.t :=
  [ AddColumn (AddColumnCommand.mk "" (rawColumn "INT NOT NULL") "" false);
    DropIndex "idx_x" ].

(** [rows] are the results of the commands of [tc], one each, in order. *)
Definition rendered (tc : TableCommands.t) (rows : list string) : Prop :=
  Forall2 (fun c row => toSQL c = Return row) tc rows.


Definition nonempty (row : string) : bool := negb (row =? "").

(** The join that leaves out the empty rows: what a renderer that drops the
    commands rendering empty would return for these rows (specification,
    section 4.1). *)
Definition join_without_empty (rows : list string) : string :=
  Join (filter nonempty rows) ", ".

(** Total number of bytes of the rows. *)
Definition total_length (rows : list string) : nat :=
  fold_right (fun row n => String.length row + n) 0 rows.

(** [ch] is one of the bytes of [s]. *)
Fixpoint has_byte (ch : ascii) (s : string) : bool :=
  match s with
  | EmptyString => false
  | String c s' => Ascii.eqb c ch || has_byte ch s'
  end.

(** ** Columns whose [buildRow] may panic *)

(** Modelled from the spec: the interface [columnType] is declared outside
    this file (section 3: "any value that can render itself into a SQL
    column-definition string").  [columnType.t] above takes the held values on
    which [buildRow] returns.  Go allows more: an interface value that holds a
    nil pointer is not [nil], and the call of a method through it can panic.
    Here the method of the held value may panic. *)
Module columnInterface.

Record impl : Type := Impl {
  self : Type;
  value : self;
  method_buildRow : self -> go string
}.

(** An interface value: [nil], or an implementation. *)
Definition t : Type := option impl.

Definition nil : t := None.

Definition is_nil (c : t) : bool :=
  match c with
  | None => true
  | Some _ => false
  end.

(** [c.buildRow()]: a nil pointer dereference on [nil], otherwise what the
    method of the held value does. *)
Definition buildRow (c : t) : go string :=
  match c with
  | None => Panic
  | Some i => method_buildRow i (value i)
  end.

(** The interface values of [columnType.t]: [nil], and the held values on
    which [buildRow] returns. *)
Definition returning (c : columnType.t) : t :=
  match c with
  | None => None
  | Some i =>
      Some (Impl (columnType.self i) (columnType.value i)
              (fun v => Return (columnType.method_buildRow i v)))
  end.

(** A pointer to a definition text held in the interface, [buildRow] reading
    the text through the pointer: the nil pointer is [None], and the interface
    value that holds it is not [nil]. *)
Definition pointer (p : option string) : t :=
  Some (Impl (option string) p
          (fun p => match p with
                    | Some definition => Return definition
                    | None => Panic
                    end)).

End columnInterface.

(** The three commands with a column, and the interface [command], over these
    interface values: the same methods as above. *)
Module Full.

Module AddColumnCommand.

Record t : Type := mk {
  Name : string;
  Column : columnInterface.t;
  After : string;
  First : bool
}.

Definition toSQL (c : t) : go string :=
  if columnInterface.is_nil (Column c) then Return ""
  else
    definition <- columnInterface.buildRow (Column c) ;;
    if (Name c =? "") || (definition =? "") then Return ""
    else
      let sql := "ADD COLUMN `" ++ Name c ++ "` " ++ definition in
      let sql :=
        if negb (After c =? "") then sql ++ " AFTER " ++ After c
        else if First c then sql ++ " FIRST"
        else sql in
      Return sql.

End AddColumnCommand.

Module ModifyColumnCommand.

Record t : Type := mk {
  Name : string;
  Column : columnInterface.t
}.

Definition toSQL (c : t) : go string :=
  if columnInterface.is_nil (Column c) then Return ""
  else
    definition <- columnInterface.buildRow (Column c) ;;
    if (Name c =? "") || (definition =? "") then Return ""
    else Return (Sprintf "MODIFY `%s` %s" [Name c; definition]).

End ModifyColumnCommand.

Module ChangeColumnCommand.

Record t : Type := mk {
  From : string;
  To : string;
  Column : columnInterface.t
}.

(** The definition is built a second time for the result. *)
Definition toSQL (c : t) : go string :=
  if columnInterface.is_nil (Column c) then Return ""
  else
    definition <- columnInterface.buildRow (Column c) ;;
    if (From c =? "") || (To c =? "") || (definition =? "") then Return ""
    else
      again <- columnInterface.buildRow (Column c) ;;
      Return (Sprintf "CHANGE `%s` `%s` %s" [From c; To c; again]).

End ChangeColumnCommand.

(** A [command]: the three types above, and the nine without a column. *)
Inductive command : Type :=
| AddColumn (c : AddColumnCommand.t)
| RenameColumn (c : RenameColumnCommand.t)
| ModifyColumn (c : ModifyColumnCommand.t)
| ChangeColumn (c : ChangeColumnCommand.t)
| DropColumn (c : DropColumnCommand.t)
| AddIndex (c : AddIndexCommand.t)
| DropIndex (c : DropIndexCommand.t)
| AddForeign (c : AddForeignCommand.t)
| DropForeign (c : DropForeignCommand.t)
| AddUniqueIndex (c : AddUniqueIndexCommand.t)
| AddPrimaryIndex (c : AddPrimaryIndexCommand.t)
| DropPrimaryIndex (c : DropPrimaryIndexCommand.t).

Definition toSQL (c : command) : go string :=
  match c with
  | AddColumn c => AddColumnCommand.toSQL c
  | RenameColumn c => RenameColumnCommand.toSQL c
  | ModifyColumn c => ModifyColumnCommand.toSQL c
  | ChangeColumn c => ChangeColumnCommand.toSQL c
  | DropColumn c => DropColumnCommand.toSQL c
  | AddIndex c => AddIndexCommand.toSQL c
  | DropIndex c => DropIndexCommand.toSQL c
  | AddForeign c => AddForeignCommand.toSQL c
  | DropForeign c => DropForeignCommand.toSQL c
  | AddUniqueIndex c => AddUniqueIndexCommand.toSQL c
  | AddPrimaryIndex c => AddPrimaryIndexCommand.toSQL c
  | DropPrimaryIndex c => DropPrimaryIndexCommand.toSQL c
  end.

(** The column of the command is not [nil] and [buildRow] panics on it. *)
Definition column_panics (c : command) : Prop :=
  match c with
  | AddColumn c =>
      columnInterface.is_nil (AddColumnCommand.Column c) = false /\
      columnInterface.buildRow (AddColumnCommand.Column c) = Panic
  | ModifyColumn c =>
      columnInterface.is_nil (ModifyColumnCommand.Column c) = false /\
      columnInterface.buildRow (ModifyColumnCommand.Column c) = Panic
  | ChangeColumn c =>
      columnInterface.is_nil (ChangeColumnCommand.Column c) = false /\
      columnInterface.buildRow (ChangeColumnCommand.Column c) = Panic
  | _ => False
  end.

End Full.

(** A command of the first part among these: its column is [nil] or holds a
    value on which [buildRow] returns. *)
Definition full_command (c : command) : Full.command :=
  match c with
  | AddColumn c =>
      Full.AddColumn
        (Full.AddColumnCommand.mk (AddColumnCommand.Name c)
           (columnInterface.returning (AddColumnCommand.Column c))
           (AddColumnCommand.After c) (AddColumnCommand.First c))
  | RenameColumn c => Full.RenameColumn c
  | ModifyColumn c =>
      Full.ModifyColumn
        (Full.ModifyColumnCommand.mk (ModifyColumnCommand.Name c)
           (columnInterface.returning (ModifyColumnCommand.Column c)))
  | ChangeColumn c =>
      Full.ChangeColumn
        (Full.ChangeColumnCommand.mk (ChangeColumnCommand.From c)
           (ChangeColumnCommand.To c)
           (columnInterface.returning (ChangeColumnCommand.Column c)))
  | DropColumn c => Full.DropColumn c
  | AddIndex c => Full.AddIndex c
  | DropIndex c => Full.DropIndex c
  | AddForeign c => Full.AddForeign c
  | DropForeign c => Full.DropForeign c
  | AddUniqueIndex c => Full.AddUniqueIndex c
  | AddPrimaryIndex c => Full.AddPrimaryIndex c
  | DropPrimaryIndex c => Full.DropPrimaryIndex c
  end.

(** ** What the further properties are stated with *)


(** The text each [toSQL] puts first in a clause, up to its first operand. *)
Definition keyword (c : command) : string :=
  match c with
  | AddColumn _ => "ADD COLUMN `"
  | RenameColumn _ => "RENAME COLUMN `"
  | ModifyColumn _ => "MODIFY `"
  | ChangeColumn _ => "CHANGE `"
  | DropColumn _ => "DROP COLUMN `"
  | AddIndex _ => "ADD KEY `"
  | DropIndex _ => "DROP KEY `"
  | AddForeign _ => "ADD "
  | DropForeign _ => "DROP FOREIGN KEY `"
  | AddUniqueIndex _ => "ADD UNIQUE KEY `"
  | AddPrimaryIndex _ => "ADD PRIMARY KEY (`"
  | DropPrimaryIndex _ => "DROP PRIMARY KEY"
  end.


(** [s] has no backtick. *)
Definition backtick_free (s : string) : bool := negb (has_byte "`" s).

(** The command is made of identifiers only, and each identifier that the
    clause continues after with a backtick of its own text has none inside:
    the old name of Rename Column, the name and the columns of Add Index and
    Add Unique Index.  The commands with a column or a descriptor are left
    out, their values not being text. *)
Definition plain_identifiers (c : command) : bool :=
  match c with
  | RenameColumn c => backtick_free (RenameColumnCommand.Old c)
  | AddIndex c =>
      backtick_free (AddIndexCommand.Name c) &&
      forallb backtick_free (AddIndexCommand.Columns c)
  | AddUniqueIndex c =>
      backtick_free (AddUniqueIndexCommand.Key c) &&
      forallb backtick_free (AddUniqueIndexCommand.Columns c)
  | DropColumn _ | DropIndex _ | DropForeign _ | AddPrimaryIndex _
  | DropPrimaryIndex _ => true
  | AddColumn _ | ModifyColumn _ | ChangeColumn _ | AddForeign _ => false
  end.

(** * Properties *)

(** ** The scenarios of the specification, section 8 *)

Example scenario_1 :
  AddColumnCommand.toSQL
    (AddColumnCommand.mk "age" (rawColumn "INT NOT NULL") "" false)
  = Return "ADD COLUMN `age` INT NOT NULL".
Proof. reflexivity. Qed.

Example scenario_2 :
  AddColumnCommand.toSQL
    (AddColumnCommand.mk "age" (rawColumn "INT NOT NULL") "name" false)
  = Return "ADD COLUMN `age` INT NOT NULL AFTER name".
Proof. reflexivity. Qed.

Example scenario_3 :
  RenameColumnCommand.toSQL (RenameColumnCommand.mk "nm" "name")
  = Return "RENAME COLUMN `nm` TO `name`".
Proof. reflexivity. Qed.

Example scenario_4 :
  AddIndexCommand.toSQL (AddIndexCommand.mk "idx_age" ["age"; "name"])
  = Return "ADD KEY `idx_age` (`age`, `name`)".
Proof. reflexivity. Qed.

Example scenario_5 :
  toSQL (DropPrimaryIndex DropPrimaryIndexCommand.mk) = Return "DROP PRIMARY KEY".
Proof. reflexivity. Qed.

(** ** Strings *)

Section StringFacts.

Lemma append_assoc (a b c : string) : (a ++ b) ++ c = a ++ (b ++ c).
Proof.
  induction a as [|x a IH]; simpl; [reflexivity | now rewrite IH].
Qed.

Lemma length_append (a b : string) :
  String.length (a ++ b) = String.length a + String.length b.
Proof.
  induction a as [|x a IH]; simpl; [reflexivity | now rewrite IH].
Qed.

Lemma eqb_empty_false (a : string) : a <> "" -> (a =? "") = false.
Proof.
  intros H. now apply String.eqb_neq.
Qed.

End StringFacts.

(** Both sides are the same appends, grouped differently. *)
Ltac append_normal :=
  repeat progress (simpl; rewrite ?append_assoc); reflexivity.

(** ** strings.Join *)

Section JoinFacts.

Variable sep : string.

Lemma fold_write_append (rest : list string) (a b : string) :
  fold_left (write_next sep) rest (a ++ b)
  = a ++ fold_left (write_next sep) rest b.
Proof.
  revert b. induction rest as [|s rest IH]; intros b; simpl; [reflexivity|].
  rewrite <- IH. f_equal. unfold write_next.
  now rewrite !append_assoc.
Qed.

Lemma Join_fold (e : string) (rest : list string) :
  Join (e :: rest) sep = fold_left (write_next sep) rest e.
Proof.
  destruct rest; reflexivity.
Qed.

(** The recursive reading of [Join]. *)
Lemma Join_cons (e e' : string) (rest : list string) :
  Join (e :: e' :: rest) sep = e ++ sep ++ Join (e' :: rest) sep.
Proof.
  rewrite !Join_fold. simpl fold_left. unfold write_next at 2.
  now rewrite append_assoc, !fold_write_append.
Qed.

Lemma Join_app (xs ys : list string) :
  xs <> [] -> ys <> [] ->
  Join (xs ++ ys)%list sep = Join xs sep ++ sep ++ Join ys sep.
Proof.
  intros Hx Hy. induction xs as [|x xs IH]; [congruence|].
  destruct ys as [|y ys]; [congruence|].
  destruct xs as [|x' xs].
  - simpl app. now rewrite Join_cons.
  - change ((x :: x' :: xs) ++ y :: ys)%list
      with (x :: x' :: (xs ++ y :: ys))%list.
    rewrite !Join_cons.
    change (x' :: (xs ++ y :: ys))%list with ((x' :: xs) ++ y :: ys)%list.
    rewrite IH by congruence.
    now rewrite !append_assoc.
Qed.

Lemma length_Join (rows : list string) :
  String.length (Join rows sep)
  = total_length rows + (List.length rows - 1) * String.length sep.
Proof.
  induction rows as [|e rows IH]; [reflexivity|].
  destruct rows as [|e' rows].
  - simpl. lia.
  - rewrite Join_cons, !length_append, IH.
    change (total_length (e :: e' :: rows))
      with (String.length e + total_length (e' :: rows)).
    simpl List.length. lia.
Qed.

End JoinFacts.

(** ** strings.HasPrefix, strings.Contains, strings.HasSuffix *)

Section SubstringFacts.

Lemma HasPrefix_append (p b : string) : HasPrefix (p ++ b) p = true.
Proof.
  induction p as [|x p IH]; simpl; [reflexivity|].
  now rewrite Ascii.eqb_refl, IH.
Qed.

Lemma HasPrefix_app_l (a b p : string) :
  HasPrefix a p = true -> HasPrefix (a ++ b) p = true.
Proof.
  revert a. induction p as [|x p IH]; intros a; [reflexivity|].
  destruct a as [|y a]; simpl; [discriminate|].
  intros H. apply andb_true_iff in H as [H1 H2].
  now rewrite H1, IH.
Qed.

Lemma HasPrefix_Contains (s p : string) :
  HasPrefix s p = true -> Contains s p = true.
Proof.
  intros H. destruct s; simpl in *; now rewrite H.
Qed.

Lemma Contains_cons (c : ascii) (s p : string) :
  Contains s p = true -> Contains (String c s) p = true.
Proof.
  intros H. change (Contains (String c s) p)
    with (HasPrefix (String c s) p || Contains s p).
  rewrite H. apply orb_true_r.
Qed.

Lemma Contains_app_r (a b p : string) :
  Contains b p = true -> Contains (a ++ b) p = true.
Proof.
  intros H. induction a as [|x a IH]; [exact H|].
  now apply Contains_cons.
Qed.

Lemma Contains_app_l (a b p : string) :
  Contains a p = true -> Contains (a ++ b) p = true.
Proof.
  induction a as [|x a IH]; intros H.
  - apply HasPrefix_Contains.
    apply (HasPrefix_app_l "" b p).
    simpl in H. now rewrite orb_false_r in H.
  - change (Contains (String x a) p)
      with (HasPrefix (String x a) p || Contains a p) in H.
    apply orb_true_iff in H as [H|H].
    + apply HasPrefix_Contains. now apply (HasPrefix_app_l (String x a)).
    + apply (Contains_cons x). now apply IH.
Qed.

(** A prefix that reaches over a byte it does not have ends before it. *)
Lemma HasPrefix_before_byte (ch : ascii) (a b q : string) :
  has_byte ch q = false ->
  HasPrefix (a ++ String ch b) q = true -> HasPrefix a q = true.
Proof.
  revert a. induction q as [|y q IH]; intros a Hq H; [reflexivity|].
  simpl in Hq. apply orb_false_iff in Hq as [Hy Hq].
  destruct a as [|x a]; simpl in H |- *.
  - rewrite Ascii.eqb_sym, Hy in H. discriminate.
  - apply andb_true_iff in H as [H1 H2].
    rewrite H1. now apply IH.
Qed.

(** An occurrence of [p] cannot lie across a byte that [p] does not have. *)
Lemma Contains_split_at_byte (ch : ascii) (a b p : string) :
  has_byte ch p = false ->
  Contains (a ++ String ch b) p = true ->
  Contains a p = true \/ Contains b p = true.
Proof.
  intros Hp. induction a as [|x a IH]; intros H.
  - change (Contains ("" ++ String ch b) p)
      with (HasPrefix ("" ++ String ch b) p || Contains b p) in H.
    apply orb_true_iff in H as [H|H]; [left | now right].
    apply HasPrefix_Contains. now apply (HasPrefix_before_byte ch "" b).
  - change (Contains (String x a ++ String ch b) p)
      with (HasPrefix (String x a ++ String ch b) p
            || Contains (a ++ String ch b) p) in H.
    apply orb_true_iff in H as [H|H].
    + left. apply HasPrefix_Contains.
      now apply (HasPrefix_before_byte ch (String x a) b).
    + destruct (IH H) as [H'|H']; [left | now right].
      now apply Contains_cons.
Qed.

(** The same when the byte is the first one of the searched text, and only
    there: an occurrence lies before the byte or starts at or after it. *)
Lemma Contains_split_at_head (ch : ascii) (a b q : string) :
  has_byte ch q = false ->
  Contains (a ++ String ch b) (String ch q) = true ->
  Contains a (String ch q) = true \/
  Contains (String ch b) (String ch q) = true.
Proof.
  intros Hq. induction a as [|x a IH]; intros H; [now right|].
  change (Contains (String x a ++ String ch b) (String ch q))
    with (HasPrefix (String x a ++ String ch b) (String ch q)
          || Contains (a ++ String ch b) (String ch q)) in H.
  apply orb_true_iff in H as [H|H].
  - left. apply HasPrefix_Contains. simpl in H |- *.
    apply andb_true_iff in H as [H1 H2]. rewrite H1.
    now apply (HasPrefix_before_byte ch a b).
  - destruct (IH H) as [H'|H']; [left | now right].
    now apply Contains_cons.
Qed.

Lemma substring_all (b : string) : substring 0 (String.length b) b = b.
Proof.
  induction b as [|x b IH]; simpl; [reflexivity | now rewrite IH].
Qed.

Lemma substring_skip (a b : string) :
  substring (String.length a) (String.length b) (a ++ b) = b.
Proof.
  induction a as [|x a IH]; simpl; [apply substring_all | exact IH].
Qed.

Lemma HasSuffix_append (a b : string) : HasSuffix (a ++ b) b = true.
Proof.
  unfold HasSuffix. rewrite length_append.
  replace (String.length a + String.length b - String.length b)
    with (String.length a) by lia.
  rewrite substring_skip, String.eqb_refl, andb_true_r.
  apply Nat.leb_le. lia.
Qed.

End SubstringFacts.

(** ** Rows without the empty ones *)

Section EmptyRows.

Lemma total_length_nonempty (rows : list string) :
  total_length (filter nonempty rows) = total_length rows.
Proof.
  induction rows as [|row rows IH]; [reflexivity|].
  simpl. destruct row as [|x row]; simpl; now rewrite IH.
Qed.

Lemma filter_nonempty_all (rows : list string) :
  Forall (fun row => row <> "") rows -> filter nonempty rows = rows.
Proof.
  induction 1 as [|row rows Hrow _ IH]; [reflexivity|].
  simpl. unfold nonempty at 1. rewrite (eqb_empty_false row Hrow). simpl.
  now rewrite IH.
Qed.

Lemma filter_nonempty_length (rows : list string) :
  List.length (filter nonempty rows) = List.length rows ->
  Forall (fun row => row <> "") rows.
Proof.
  induction rows as [|row rows IH]; intros H; [constructor|].
  pose proof (filter_length_le nonempty rows) as Hle.
  simpl in H. destruct row as [|x row]; simpl in H.
  - lia.
  - constructor; [discriminate | apply IH; lia].
Qed.

(** Leaving the empty rows out changes the join, unless there is none or the
    row is alone. *)
Lemma join_without_empty_same (rows : list string) :
  Join rows ", " = join_without_empty rows <->
  Forall (fun row => row <> "") rows \/ List.length rows = 1.
Proof.
  unfold join_without_empty. split.
  - intros H. apply (f_equal String.length) in H.
    rewrite !length_Join, total_length_nonempty in H. simpl String.length in H.
    pose proof (filter_length_le nonempty rows) as Hle.
    destruct (Nat.eq_dec (List.length (filter nonempty rows)) (List.length rows))
      as [Heq|Hne].
    + left. now apply filter_nonempty_length.
    + right. lia.
  - intros [H|H].
    + now rewrite filter_nonempty_all.
    + destruct rows as [|row [|row' rows]]; simpl in H; try lia.
      destruct row; reflexivity.
Qed.

End EmptyRows.

(** ** The commands *)

Section CommandFacts.

(** Every [toSQL] of this file returns: the three that call [buildRow] do so
    after the comparison of the column with [nil]. *)
Lemma toSQL_returns (c : command) : exists sql, toSQL c = Return sql.
Proof.
  destruct c as [c|c|c|c|c|c|c|c|c|c|c|c]; simpl.
  - unfold AddColumnCommand.toSQL.
    destruct (AddColumnCommand.Column c) as [i|]; simpl; [|now eexists].
    destruct (_ || _); now eexists.
  - unfold RenameColumnCommand.toSQL. destruct (_ || _); now eexists.
  - unfold ModifyColumnCommand.toSQL.
    destruct (ModifyColumnCommand.Column c) as [i|]; simpl; [|now eexists].
    destruct (_ || _); now eexists.
  - unfold ChangeColumnCommand.toSQL.
    destruct (ChangeColumnCommand.Column c) as [i|]; simpl; [|now eexists].
    destruct (_ || _); now eexists.
  - unfold DropColumnCommand.toSQL. destruct (_ =? _); now eexists.
  - unfold AddIndexCommand.toSQL. destruct (_ || _); now eexists.
  - unfold DropIndexCommand.toSQL. destruct (_ =? _); now eexists.
  - unfold AddForeignCommand.toSQL. destruct (_ =? _); now eexists.
  - unfold DropForeignCommand.toSQL. destruct (_ =? _); now eexists.
  - unfold AddUniqueIndexCommand.toSQL. destruct (_ || _); now eexists.
  - unfold AddPrimaryIndexCommand.toSQL. destruct (_ =? _); now eexists.
  - now eexists.
Qed.

Lemma rendered_exists (tc : TableCommands.t) : exists rows, rendered tc rows.
Proof.
  induction tc as [|c tc [rows IH]].
  - exists []. constructor.
  - destruct (toSQL_returns c) as [row Hrow].
    exists (row :: rows). now constructor.
Qed.

Lemma rendered_length (tc : TableCommands.t) (rows : list string) :
  rendered tc rows -> List.length rows = List.length tc.
Proof.
  intros H. symmetry. exact (Forall2_length H).
Qed.

(** The loop of [TableCommands.toSQL] appends the rows to those it has. *)
Lemma for_range_appends (tc : TableCommands.t) (rows acc : list string) :
  rendered tc rows ->
  for_range tc (fun rows c => row <- toSQL c ;; Return (rows ++ [row])%list) acc
  = Return (acc ++ rows)%list.
Proof.
  intros H. revert acc.
  induction H as [|c row tc rows Hc _ IH]; intros acc; simpl.
  - now rewrite app_nil_r.
  - rewrite Hc. simpl. rewrite IH, <- app_assoc. reflexivity.
Qed.

Lemma toSQL_Join (tc : TableCommands.t) (rows : list string) :
  rendered tc rows -> TableCommands.toSQL tc = Return (Join rows ", ").
Proof.
  intros H. unfold TableCommands.toSQL.
  now rewrite (for_range_appends tc rows [] H).
Qed.

End CommandFacts.

(** ** Add Column *)

Section AddColumnFacts.

Import AddColumnCommand.

Variable c : AddColumnCommand.t.
Variable definition : string.

Hypothesis name_given : Name c <> "".
Hypothesis column_built : columnType.buildRow (Column c) = Return definition.
Hypothesis definition_given : definition <> "".

(** The result for a command with a name and a column that builds a
    definition. *)
Lemma toSQL_well_formed :
  AddColumnCommand.toSQL c =
  Return
    (if negb (After c =? "")
     then ("ADD COLUMN `" ++ Name c ++ "` " ++ definition) ++ " AFTER " ++ After c
     else if First c
          then ("ADD COLUMN `" ++ Name c ++ "` " ++ definition) ++ " FIRST"
          else "ADD COLUMN `" ++ Name c ++ "` " ++ definition).
Proof.
  unfold AddColumnCommand.toSQL.
  destruct (Column c) as [i|]; [|discriminate].
  simpl in column_built |- *. injection column_built as ->.
  now rewrite (eqb_empty_false _ name_given), (eqb_empty_false _ definition_given).
Qed.

End AddColumnFacts.

(** Where [" FIRST"] can be found in a result that has the AFTER clause: in
    the name, or in the definition or the After text, at their start too. *)
Lemma FIRST_in_AFTER_result (name definition after : string) :
  Contains (("ADD COLUMN `" ++ name ++ "` " ++ definition) ++ " AFTER " ++ after)
    " FIRST" = true <->
  Contains name " FIRST" = true \/
  Contains (" " ++ definition) " FIRST" = true \/
  Contains (" " ++ after) " FIRST" = true.
Proof.
  split.
  - intros H.
    replace (("ADD COLUMN `" ++ name ++ "` " ++ definition) ++ " AFTER " ++ after)
      with ("ADD COLUMN " ++
            String "`" (name ++
              String "`" ((" " ++ definition) ++
                String " " ("AFTER" ++ String " " after)))) in H
      by append_normal.
    apply (Contains_split_at_byte "`") in H; [|reflexivity].
    destruct H as [H|H]; [discriminate H|].
    apply (Contains_split_at_byte "`") in H; [|reflexivity].
    destruct H as [H|H]; [now left|]. right.
    apply (Contains_split_at_head " " _ _ "FIRST") in H; [|reflexivity].
    destruct H as [H|H]; [now left|]. right.
    apply (Contains_split_at_head " " " AFTER" after "FIRST") in H; [|reflexivity].
    destruct H as [H|H]; [discriminate H | exact H].
  - intros [H|[H|H]].
    + replace (("ADD COLUMN `" ++ name ++ "` " ++ definition) ++ " AFTER " ++ after)
        with ("ADD COLUMN `" ++
              name ++ "` " ++ definition ++ " AFTER " ++ after)
        by append_normal.
      apply Contains_app_r. now apply Contains_app_l.
    + replace (("ADD COLUMN `" ++ name ++ "` " ++ definition) ++ " AFTER " ++ after)
        with (("ADD COLUMN `" ++ name ++ "`") ++
              (" " ++ definition) ++ " AFTER " ++ after)
        by append_normal.
      apply Contains_app_r. now apply Contains_app_l.
    + replace (("ADD COLUMN `" ++ name ++ "` " ++ definition) ++ " AFTER " ++ after)
        with (("ADD COLUMN `" ++ name ++ "` " ++ definition ++ " AFTER") ++
              " " ++ after)
        by append_normal.
      now apply Contains_app_r.
Qed.

(** ** Add Index and Add Unique Index *)

Section IndexFacts.

Variable name : string.
Variable columns : list string.

Hypothesis name_given : name <> "".
Hypothesis columns_given : columns <> [].

Lemma AddIndex_toSQL :
  AddIndexCommand.toSQL (AddIndexCommand.mk name columns)
  = Return ("ADD KEY `" ++ name ++ "` (`" ++ Join columns "`, `" ++ "`)").
Proof.
  unfold AddIndexCommand.toSQL. simpl AddIndexCommand.Name.
  simpl AddIndexCommand.Columns. rewrite (eqb_empty_false _ name_given).
  destruct columns; [congruence | reflexivity].
Qed.

Lemma AddUniqueIndex_toSQL :
  AddUniqueIndexCommand.toSQL (AddUniqueIndexCommand.mk name columns)
  = Return ("ADD UNIQUE KEY `" ++ name ++ "` (`" ++ Join columns "`, `" ++ "`)").
Proof.
  unfold AddUniqueIndexCommand.toSQL. simpl AddUniqueIndexCommand.Key.
  simpl AddUniqueIndexCommand.Columns. rewrite (eqb_empty_false _ name_given).
  destruct columns; [congruence | reflexivity].
Qed.

End IndexFacts.

(** An empty column name leaves a pair of backticks with nothing between. *)
Lemma empty_column_backticks (columns : list string) (pre post : string) :
  In "" columns ->
  Contains (pre ++ "`" ++ Join columns "`, `" ++ "`" ++ post) "``" = true.
Proof.
  revert pre. induction columns as [|col columns IH]; intros pre H; [destruct H|].
  destruct columns as [|col' columns].
  - destruct H as [->|[]]. apply Contains_app_r, HasPrefix_Contains.
    apply (HasPrefix_append "``" post).
  - rewrite Join_cons. destruct H as [->|H].
    + apply Contains_app_r, HasPrefix_Contains. reflexivity.
    + specialize (IH (pre ++ "`" ++ col ++ "`, ") H).
      revert IH. generalize (Join (col' :: columns) "`, `"). intros J IH.
      replace (pre ++ "`" ++ (col ++ "`, `" ++ J) ++ "`" ++ post)
        with ((pre ++ "`" ++ col ++ "`, ") ++ "`" ++ J ++ "`" ++ post);
        [exact IH|].
      rewrite !append_assoc. simpl. rewrite ?append_assoc. reflexivity.
Qed.

(** * The claims *)

(** ** The list renderer *)

(** C1, as stated, fails on the list of scenario 6: the first command
    renders empty and the second does not, and the result starts with the
    separator where the join of the non-empty rows has none. *)
Lemma scenario_6_keeps_empty_row :
  rendered scenario_6 [""; "DROP KEY `idx_x`"] /\
  join_without_empty [""; "DROP KEY `idx_x`"] = "DROP KEY `idx_x`" /\
  TableCommands.toSQL scenario_6 = Return ", DROP KEY `idx_x`" /\
  TableCommands.toSQL scenario_6
  <> Return (join_without_empty [""; "DROP KEY `idx_x`"]).
Proof.
  split; [|split; [|split]].
  - repeat constructor.
  - reflexivity.
  - reflexivity.
  - discriminate.
Qed.

(** C1 (amended): for every command list the result is the join with [", "]
    of the results of all its commands, in order, a command that renders
    empty being kept as an empty segment; this is the join of the non-empty
    fragments alone exactly when no command of the list renders empty or the
    list has a single command. *)
Theorem toSQL_joins_every_row (tc : TableCommands.t) :
  exists rows,
    rendered tc rows /\
    TableCommands.toSQL tc = Return (Join rows ", ") /\
    (Join rows ", " = join_without_empty rows <->
     Forall (fun row => row <> "") rows \/ List.length rows = 1).
Proof.
  destruct (rendered_exists tc) as [rows Hrows].
  exists rows. split; [exact Hrows|]. split.
  - now apply toSQL_Join.
  - apply join_without_empty_same.
Qed.

Lemma toSQL_joins_every_row_witness :
  exists rows,
    rendered [DropColumn "a"; DropPrimaryIndex DropPrimaryIndexCommand.mk] rows /\
    TableCommands.toSQL [DropColumn "a"; DropPrimaryIndex DropPrimaryIndexCommand.mk]
    = Return (Join rows ", ") /\
    (Join rows ", " = join_without_empty rows <->
     Forall (fun row => row <> "") rows \/ List.length rows = 1).
Proof.
  exact (toSQL_joins_every_row
           [DropColumn "a"; DropPrimaryIndex DropPrimaryIndexCommand.mk]).
Defined.

(** C7: rendering the empty command list returns the empty string; it does
    not panic. *)
Theorem toSQL_empty_list : TableCommands.toSQL [] = Return "".
Proof.
  reflexivity.
Qed.

(** C8: the result for a list of one command is that command's result; the
    result for the concatenation of two non-empty lists is the result for the
    first, then [", "], then the result for the second; and the result for any
    list is the join of the results of its commands, each rendered on its own,
    in the order of the list. *)
Theorem toSQL_concatenation :
  (forall c : command, TableCommands.toSQL [c] = toSQL c) /\
  (forall (tc : TableCommands.t) (rows : list string),
     Forall2 (fun c row => toSQL c = Return row) tc rows ->
     TableCommands.toSQL tc = Return (Join rows ", ")) /\
  (forall xs ys : TableCommands.t,
     xs <> [] -> ys <> [] ->
     exists sx sy,
       TableCommands.toSQL xs = Return sx /\
       TableCommands.toSQL ys = Return sy /\
       TableCommands.toSQL (xs ++ ys)%list = Return (sx ++ ", " ++ sy)).
Proof.
  split; [|split].
  - intros c. unfold TableCommands.toSQL. simpl.
    destruct (toSQL c); reflexivity.
  - exact toSQL_Join.
  - intros xs ys Hxs Hys.
    destruct (rendered_exists xs) as [rx Hrx].
    destruct (rendered_exists ys) as [ry Hry].
    exists (Join rx ", "), (Join ry ", ").
    split; [now apply toSQL_Join|]. split; [now apply toSQL_Join|].
    rewrite (toSQL_Join (xs ++ ys)%list (rx ++ ry)%list)
      by (now apply Forall2_app).
    f_equal. apply Join_app.
    + intros ->. apply rendered_length in Hrx. destruct xs; [congruence|].
      discriminate Hrx.
    + intros ->. apply rendered_length in Hry. destruct ys; [congruence|].
      discriminate Hry.
Qed.

Lemma toSQL_concatenation_witness :
  TableCommands.toSQL [DropColumn "a"] = toSQL (DropColumn "a") /\
  exists sx sy,
    TableCommands.toSQL [DropColumn "a"; DropIndex ""] = Return sx /\
    TableCommands.toSQL [DropIndex "k"] = Return sy /\
    TableCommands.toSQL ([DropColumn "a"; DropIndex ""] ++ [DropIndex "k"])%list
    = Return (sx ++ ", " ++ sy).
Proof.
  split.
  - exact (proj1 toSQL_concatenation (DropColumn "a")).
  - apply (proj2 (proj2 toSQL_concatenation)); discriminate.
Defined.

(** ** Single commands *)



(** ** Add Column: AFTER and FIRST *)

(** C3, as stated, fails when the text [" FIRST"] comes with a field: here
    the definition has it, the command is well formed with a non-empty After,
    and the result contains [" FIRST"]. *)
Lemma AFTER_result_with_FIRST :
  AddColumnCommand.toSQL
    (AddColumnCommand.mk "rank" (rawColumn "INT COMMENT 'THE FIRST'") "id" false)
  = Return "ADD COLUMN `rank` INT COMMENT 'THE FIRST' AFTER id" /\
  Contains "ADD COLUMN `rank` INT COMMENT 'THE FIRST' AFTER id" " FIRST" = true.
Proof.
  split; reflexivity.
Qed.

(** C3 (amended): for a well-formed Add Column command, when After is not
    empty the result is the column clause followed by [" AFTER "] and After
    whatever the First flag, so it ends with that suffix, and [" FIRST"] occurs
    in it only where the name, the definition or After bring it (inside the
    name, or in the definition or After, also at their start); when After is
    empty and First is set the result ends with [" FIRST"]; when After is empty
    and First is not set the result is the column clause and ends at the
    definition. *)
Theorem AddColumn_position (c : AddColumnCommand.t) (definition : string) :
  AddColumnCommand.Name c <> "" ->
  columnType.buildRow (AddColumnCommand.Column c) = Return definition ->
  definition <> "" ->
  exists sql,
    AddColumnCommand.toSQL c = Return sql /\
    (AddColumnCommand.After c <> "" ->
     sql = "ADD COLUMN `" ++ AddColumnCommand.Name c ++ "` " ++ definition
           ++ " AFTER " ++ AddColumnCommand.After c /\
     HasSuffix sql (" AFTER " ++ AddColumnCommand.After c) = true /\
     (Contains sql " FIRST" = true <->
      Contains (AddColumnCommand.Name c) " FIRST" = true \/
      Contains (" " ++ definition) " FIRST" = true \/
      Contains (" " ++ AddColumnCommand.After c) " FIRST" = true)) /\
    (AddColumnCommand.After c = "" -> AddColumnCommand.First c = true ->
     sql = "ADD COLUMN `" ++ AddColumnCommand.Name c ++ "` " ++ definition
           ++ " FIRST" /\
     HasSuffix sql " FIRST" = true) /\
    (AddColumnCommand.After c = "" -> AddColumnCommand.First c = false ->
     sql = "ADD COLUMN `" ++ AddColumnCommand.Name c ++ "` " ++ definition /\
     HasSuffix sql definition = true).
Proof.
  intros Hname Hcol Hdef.
  rewrite (toSQL_well_formed c definition Hname Hcol Hdef).
  eexists. split; [reflexivity|]. split; [|split].
  - intros Hafter. rewrite (eqb_empty_false _ Hafter). simpl negb. cbv iota.
    split; [append_normal|]. split.
    + apply HasSuffix_append.
    + apply FIRST_in_AFTER_result.
  - intros -> ->. simpl negb. cbv iota.
    split; [append_normal|]. apply HasSuffix_append.
  - intros -> ->. simpl negb. cbv iota.
    split; [reflexivity|].
    replace ("ADD COLUMN `" ++ AddColumnCommand.Name c ++ "` " ++ definition)
      with (("ADD COLUMN `" ++ AddColumnCommand.Name c ++ "` ") ++ definition)
      by append_normal.
    apply HasSuffix_append.
Qed.

Lemma AddColumn_position_witness :
  exists sql,
    AddColumnCommand.toSQL
      (AddColumnCommand.mk "age" (rawColumn "INT NOT NULL") "name" true)
    = Return sql /\
    sql = "ADD COLUMN `age` INT NOT NULL AFTER name" /\
    HasSuffix sql " AFTER name" = true.
Proof.
  destruct (AddColumn_position
              (AddColumnCommand.mk "age" (rawColumn "INT NOT NULL") "name" true)
              "INT NOT NULL")
    as [sql [Hsql [Hafter _]]].
  - discriminate.
  - reflexivity.
  - discriminate.
  - exists sql. split; [exact Hsql|].
    destruct Hafter as [Heq [Hsuffix _]]; [discriminate|].
    split; [exact Heq | exact Hsuffix].
Defined.

(** C4, as stated, fails on scenario 2: the After column follows the keyword
    as it is, with no backticks around it. *)
Lemma AFTER_column_as_given :
  AddColumnCommand.toSQL
    (AddColumnCommand.mk "age" (rawColumn "INT NOT NULL") "name" false)
  = Return "ADD COLUMN `age` INT NOT NULL AFTER name" /\
  AddColumnCommand.toSQL
    (AddColumnCommand.mk "age" (rawColumn "INT NOT NULL") "name" false)
  <> Return "ADD COLUMN `age` INT NOT NULL AFTER `name`".
Proof.
  split; [reflexivity | discriminate].
Qed.

(** C4 (amended): for a well-formed Add Column command with a non-empty
    After, the result is the column clause, with the name in backticks and the
    definition, followed by [" AFTER "] and the After column as given, not
    wrapped in backticks. *)
Theorem AddColumn_AFTER_unquoted (c : AddColumnCommand.t) (definition : string) :
  AddColumnCommand.Name c <> "" ->
  columnType.buildRow (AddColumnCommand.Column c) = Return definition ->
  definition <> "" ->
  AddColumnCommand.After c <> "" ->
  AddColumnCommand.toSQL c
  = Return ("ADD COLUMN `" ++ AddColumnCommand.Name c ++ "` " ++ definition
            ++ " AFTER " ++ AddColumnCommand.After c) /\
  AddColumnCommand.toSQL c
  <> Return ("ADD COLUMN `" ++ AddColumnCommand.Name c ++ "` " ++ definition
             ++ " AFTER `" ++ AddColumnCommand.After c ++ "`").
Proof.
  intros Hname Hcol Hdef Hafter.
  rewrite (toSQL_well_formed c definition Hname Hcol Hdef).
  rewrite (eqb_empty_false _ Hafter). simpl negb. cbv iota.
  split.
  - f_equal. append_normal.
  - intros H. injection H as H. apply (f_equal String.length) in H.
    repeat (rewrite ?length_append in H; simpl in H). lia.
Qed.

Lemma AddColumn_AFTER_unquoted_witness :
  AddColumnCommand.toSQL
    (AddColumnCommand.mk "age" (rawColumn "INT NOT NULL") "name" false)
  = Return "ADD COLUMN `age` INT NOT NULL AFTER name".
Proof.
  refine (proj1 (AddColumn_AFTER_unquoted
                   (AddColumnCommand.mk "age" (rawColumn "INT NOT NULL") "name" false)
                   "INT NOT NULL" _ _ _ _)).
  - discriminate.
  - reflexivity.
  - discriminate.
  - discriminate.
Defined.

(** ** Add Index, Add Unique Index, Add Foreign Key *)

(** C5: an Add Index command with a name and at least one column renders
    [ADD KEY], the name in backticks, and the columns joined with a backtick,
    a comma, a space and a backtick inside one parenthesised pair of
    backticks. *)
Theorem AddIndex_renders_key (c : AddIndexCommand.t) :
  AddIndexCommand.Name c <> "" ->
  AddIndexCommand.Columns c <> [] ->
  AddIndexCommand.toSQL c
  = Return ("ADD KEY `" ++ AddIndexCommand.Name c ++ "` (`"
            ++ Join (AddIndexCommand.Columns c) "`, `" ++ "`)").
Proof.
  destruct c as [name columns]. simpl. intros Hname Hcolumns.
  now apply AddIndex_toSQL.
Qed.

Lemma AddIndex_renders_key_witness :
  AddIndexCommand.toSQL (AddIndexCommand.mk "idx_age" ["age"; "name"])
  = Return "ADD KEY `idx_age` (`age`, `name`)".
Proof.
  apply (AddIndex_renders_key (AddIndexCommand.mk "idx_age" ["age"; "name"]));
    discriminate.
Defined.

(** C6: an Add Foreign Key command renders [ADD ] followed by what its
    descriptor renders when that is not empty, and the empty string when the
    descriptor renders empty. *)
Theorem AddForeign_adds_descriptor (c : AddForeignCommand.t) :
  (Foreign.render (AddForeignCommand.Foreign c) <> "" ->
   AddForeignCommand.toSQL c
   = Return ("ADD " ++ Foreign.render (AddForeignCommand.Foreign c))) /\
  (Foreign.render (AddForeignCommand.Foreign c) = "" ->
   AddForeignCommand.toSQL c = Return "").
Proof.
  unfold AddForeignCommand.toSQL. split; intros H.
  - now rewrite (eqb_empty_false _ H).
  - now rewrite H.
Qed.

Lemma AddForeign_adds_descriptor_witness :
  AddForeignCommand.toSQL
    (AddForeignCommand.mk
       (rawForeign "FOREIGN KEY (`owner`) REFERENCES `users` (`id`)"))
  = Return "ADD FOREIGN KEY (`owner`) REFERENCES `users` (`id`)" /\
  AddForeignCommand.toSQL (AddForeignCommand.mk (rawForeign "")) = Return "".
Proof.
  split.
  - apply (proj1 (AddForeign_adds_descriptor
                    (AddForeignCommand.mk
                       (rawForeign
                          "FOREIGN KEY (`owner`) REFERENCES `users` (`id`)")))).
    discriminate.
  - apply (proj2 (AddForeign_adds_descriptor
                    (AddForeignCommand.mk (rawForeign "")))).
    reflexivity.
Defined.

(** C9: the column names of Add Index and Add Unique Index are not checked.
    With a name and at least one column the result is the clause, which is
    not empty, whatever the column names are; an empty column name gives a
    pair of backticks with nothing between them. *)
Theorem index_columns_not_checked (name : string) (columns : list string) :
  name <> "" ->
  columns <> [] ->
  exists key unique,
    AddIndexCommand.toSQL (AddIndexCommand.mk name columns) = Return key /\
    AddUniqueIndexCommand.toSQL (AddUniqueIndexCommand.mk name columns)
    = Return unique /\
    key = "ADD KEY `" ++ name ++ "` (`" ++ Join columns "`, `" ++ "`)" /\
    unique = "ADD UNIQUE KEY `" ++ name ++ "` (`" ++ Join columns "`, `" ++ "`)" /\
    key <> "" /\ unique <> "" /\
    (In "" columns ->
     Contains key "``" = true /\ Contains unique "``" = true).
Proof.
  intros Hname Hcolumns.
  do 2 eexists.
  split; [now apply AddIndex_toSQL|].
  split; [now apply AddUniqueIndex_toSQL|].
  split; [reflexivity|]. split; [reflexivity|].
  split; [discriminate|]. split; [discriminate|].
  intros Hin. split.
  - replace ("ADD KEY `" ++ name ++ "` (`" ++ Join columns "`, `" ++ "`)")
      with (("ADD KEY `" ++ name ++ "` (") ++ "`" ++ Join columns "`, `"
            ++ "`" ++ ")")
      by (generalize (Join columns "`, `"); intros J; append_normal).
    now apply empty_column_backticks.
  - replace ("ADD UNIQUE KEY `" ++ name ++ "` (`" ++ Join columns "`, `" ++ "`)")
      with (("ADD UNIQUE KEY `" ++ name ++ "` (") ++ "`" ++ Join columns "`, `"
            ++ "`" ++ ")")
      by (generalize (Join columns "`, `"); intros J; append_normal).
    now apply empty_column_backticks.
Qed.

Lemma index_columns_not_checked_witness :
  exists key unique,
    AddIndexCommand.toSQL (AddIndexCommand.mk "n" [""]) = Return key /\
    AddUniqueIndexCommand.toSQL (AddUniqueIndexCommand.mk "n" [""])
    = Return unique /\
    key = "ADD KEY `n` (``)" /\
    unique = "ADD UNIQUE KEY `n` (``)".
Proof.
  destruct (index_columns_not_checked "n" [""])
    as [key [unique [Hkey [Hunique [Hk [Hu _]]]]]].
  - discriminate.
  - discriminate.
  - exists key, unique. repeat split; assumption.
Defined.

(** ** Panics *)

Section Panics.

(** On the commands of the first part the two embeddings agree. *)
Lemma full_command_toSQL (c : command) : Full.toSQL (full_command c) = toSQL c.
Proof.
  destruct c as [c|c|c|c|c|c|c|c|c|c|c|c]; try reflexivity; simpl.
  - unfold Full.AddColumnCommand.toSQL, AddColumnCommand.toSQL. simpl.
    destruct (AddColumnCommand.Column c); reflexivity.
  - unfold Full.ModifyColumnCommand.toSQL, ModifyColumnCommand.toSQL. simpl.
    destruct (ModifyColumnCommand.Column c); reflexivity.
  - unfold Full.ChangeColumnCommand.toSQL, ChangeColumnCommand.toSQL. simpl.
    destruct (ChangeColumnCommand.Column c); reflexivity.
Qed.

(** A command panics only through [buildRow] on a column that is not nil. *)
Lemma panic_column_panics (c : Full.command) :
  Full.toSQL c = Panic -> Full.column_panics c.
Proof.
  destruct c as [c|c|c|c|c|c|c|c|c|c|c|c]; simpl.
  - unfold Full.AddColumnCommand.toSQL.
    destruct (columnInterface.is_nil _); [discriminate|].
    destruct (columnInterface.buildRow _) as [definition|]; simpl.
    + destruct (_ || _); discriminate.
    + now split.
  - unfold RenameColumnCommand.toSQL. destruct (_ || _); discriminate.
  - unfold Full.ModifyColumnCommand.toSQL.
    destruct (columnInterface.is_nil _); [discriminate|].
    destruct (columnInterface.buildRow _) as [definition|]; simpl.
    + destruct (_ || _); discriminate.
    + now split.
  - unfold Full.ChangeColumnCommand.toSQL.
    destruct (columnInterface.is_nil _); [discriminate|].
    destruct (columnInterface.buildRow _) as [definition|]; simpl.
    + destruct (_ || _); discriminate.
    + now split.
  - unfold DropColumnCommand.toSQL. destruct (_ =? _); discriminate.
  - unfold AddIndexCommand.toSQL. destruct (_ || _); discriminate.
  - unfold DropIndexCommand.toSQL. destruct (_ =? _); discriminate.
  - unfold AddForeignCommand.toSQL. destruct (_ =? _); discriminate.
  - unfold DropForeignCommand.toSQL. destruct (_ =? _); discriminate.
  - unfold AddUniqueIndexCommand.toSQL. destruct (_ || _); discriminate.
  - unfold AddPrimaryIndexCommand.toSQL. destruct (_ =? _); discriminate.
  - discriminate.
Qed.

Lemma column_panics_panic (c : Full.command) :
  Full.column_panics c -> Full.toSQL c = Panic.
Proof.
  destruct c as [c|c|c|c|c|c|c|c|c|c|c|c]; simpl; try (now intros []).
  - unfold Full.AddColumnCommand.toSQL. now intros [-> ->].
  - unfold Full.ModifyColumnCommand.toSQL. now intros [-> ->].
  - unfold Full.ChangeColumnCommand.toSQL. now intros [-> ->].
Qed.

End Panics.

(** C10, as stated, fails for a column that is not nil and holds a nil
    pointer: the comparison with nil lets it through, [buildRow] is called
    and panics, and the Add Column command produces no string. *)
Lemma nil_pointer_column_panics :
  columnInterface.is_nil (columnInterface.pointer None) = false /\
  Full.toSQL
    (Full.AddColumn
       (Full.AddColumnCommand.mk "age" (columnInterface.pointer None) "" false))
  = Panic.
Proof.
  split; reflexivity.
Qed.

(** C10 (amended): Add Column, Modify Column and Change Column compare the
    column with nil before any use of it, so [buildRow] is never called on a
    nil column, for which they return the empty string.  A command panics
    exactly when its column is not nil and [buildRow] panics on it, as for a
    nil pointer held in the interface; every other command of every type
    returns a string, the nine types without a column always. *)
Theorem toSQL_panics_only_in_buildRow (c : Full.command) :
  (Full.toSQL c = Panic <-> Full.column_panics c) /\
  (~ Full.column_panics c -> exists sql, Full.toSQL c = Return sql) /\
  (forall name after first,
     Full.AddColumnCommand.toSQL
       (Full.AddColumnCommand.mk name columnInterface.nil after first)
     = Return "") /\
  (forall name,
     Full.ModifyColumnCommand.toSQL
       (Full.ModifyColumnCommand.mk name columnInterface.nil)
     = Return "") /\
  (forall from to,
     Full.ChangeColumnCommand.toSQL
       (Full.ChangeColumnCommand.mk from to columnInterface.nil)
     = Return "").
Proof.
  split; [split; [apply panic_column_panics | apply column_panics_panic]|].
  split.
  - intros Hreturns. destruct (Full.toSQL c) as [sql|] eqn:Hc.
    + now exists sql.
    + destruct Hreturns. now apply panic_column_panics.
  - repeat split.
Qed.

Lemma toSQL_panics_only_in_buildRow_witness :
  exists sql,
    Full.toSQL
      (Full.ChangeColumn
         (Full.ChangeColumnCommand.mk "a" "b"
            (columnInterface.pointer (Some "INT NOT NULL"))))
    = Return sql.
Proof.
  apply (toSQL_panics_only_in_buildRow
           (Full.ChangeColumn
              (Full.ChangeColumnCommand.mk "a" "b"
                 (columnInterface.pointer (Some "INT NOT NULL"))))).
  intros [_ H]. discriminate H.
Defined.

(** * Further properties of the commands *)

(** ** Which commands render the empty string *)

Section Incomplete.

Lemma buildRow_value (col : columnType.t) :
  col <> columnType.nil ->
  exists definition, columnType.buildRow col = Return definition.
Proof.
  destruct col as [i|]; intros H; [now eexists | now destruct H].
Qed.






End Incomplete.


(** ** The keyword of a clause *)

(** X2: a clause that is not empty starts with the keyword of its command
    type, up to the backtick or parenthesis that opens its first operand. *)
Theorem clause_starts_with_keyword (c : command) (sql : string) :
  toSQL c = Return sql -> sql <> "" -> HasPrefix sql (keyword c) = true.
Proof.
  destruct c as [c|c|c|c|c|c|c|c|c|c|c|c]; simpl.
  - unfold AddColumnCommand.toSQL.
    destruct (AddColumnCommand.Column c) as [i|]; simpl.
    + destruct (_ || _); [intros [= <-]; congruence|].
      destruct (negb _); [|destruct (AddColumnCommand.First c)];
        intros [= <-] _; reflexivity.
    + intros [= <-]; congruence.
  - unfold RenameColumnCommand.toSQL.
    destruct (_ || _); intros [= <-] H; [congruence | reflexivity].
  - unfold ModifyColumnCommand.toSQL.
    destruct (ModifyColumnCommand.Column c) as [i|]; simpl.
    + destruct (_ || _); intros [= <-] H; [congruence | reflexivity].
    + intros [= <-]; congruence.
  - unfold ChangeColumnCommand.toSQL.
    destruct (ChangeColumnCommand.Column c) as [i|]; simpl.
    + destruct (_ || _); intros [= <-] H; [congruence | reflexivity].
    + intros [= <-]; congruence.
  - unfold DropColumnCommand.toSQL.
    destruct (_ =? _); intros [= <-] H; [congruence | reflexivity].
  - unfold AddIndexCommand.toSQL.
    destruct (_ || _); intros [= <-] H; [congruence | reflexivity].
  - unfold DropIndexCommand.toSQL.
    destruct (_ =? _); intros [= <-] H; [congruence | reflexivity].
  - unfold AddForeignCommand.toSQL.
    destruct (_ =? _); intros [= <-] H; [congruence | reflexivity].
  - unfold DropForeignCommand.toSQL.
    destruct (_ =? _); intros [= <-] H; [congruence | reflexivity].
  - unfold AddUniqueIndexCommand.toSQL.
    destruct (_ || _); intros [= <-] H; [congruence | reflexivity].
  - unfold AddPrimaryIndexCommand.toSQL.
    destruct (_ =? _); intros [= <-] H; [congruence | reflexivity].
  - intros [= <-] _. reflexivity.
Qed.

Lemma clause_starts_with_keyword_witness :
  HasPrefix "ADD UNIQUE KEY `u` (`a`, `b`)" "ADD UNIQUE KEY `" = true.
Proof.
  apply (clause_starts_with_keyword
           (AddUniqueIndex (AddUniqueIndexCommand.mk "u" ["a"; "b"]))).
  - reflexivity.
  - discriminate.
Defined.

(** ** Lists of commands: the empty result, and what a result holds *)

Section ListFacts.

Lemma append_empty_r (a : string) : a ++ "" = a.
Proof.
  induction a as [|x a IH]; simpl; [reflexivity | now rewrite IH].
Qed.

Lemma length_zero_empty (a : string) : String.length a = 0 -> a = "".
Proof.
  destruct a; simpl; [reflexivity | discriminate].
Qed.

(** A join is empty only for no row, or for one empty row. *)
Lemma Join_empty (rows : list string) (sep : string) :
  sep <> "" -> Join rows sep = "" -> rows = [] \/ rows = [""].
Proof.
  intros Hsep H. apply (f_equal String.length) in H.
  rewrite length_Join in H. simpl in H.
  destruct rows as [|row [|row' rows]].
  - now left.
  - right. simpl in H. f_equal. apply length_zero_empty. lia.
  - exfalso. simpl in H. destruct sep; [congruence|]. simpl in H. lia.
Qed.


(** A row of a join stands in it, between what comes before and after. *)
Lemma Join_row (before after : list string) (row sep : string) :
  exists pre post,
    Join (before ++ row :: after)%list sep = pre ++ row ++ post.
Proof.
  assert (Hrow : exists post, Join (row :: after) sep = row ++ post).
  { destruct after as [|row' after].
    - exists "". simpl. now rewrite append_empty_r.
    - eexists. apply Join_cons. }
  destruct Hrow as [post Hpost].
  destruct before as [|b before].
  - exists "", post. exact Hpost.
  - exists (Join (b :: before) sep ++ sep), post.
    rewrite Join_app by discriminate.
    now rewrite Hpost, append_assoc.
Qed.


End ListFacts.

(** X3: the result for a list is the empty string exactly when the list is
    empty or holds one command that renders empty; with two commands or more
    the result has a separator at least. *)
Theorem list_renders_empty_iff (tc : TableCommands.t) :
  TableCommands.toSQL tc = Return "" <->
  tc = [] \/ exists c, tc = [c] /\ toSQL c = Return "".
Proof.
  split.
  - intros H. destruct (rendered_exists tc) as [rows Hrows].
    rewrite (toSQL_Join tc rows Hrows) in H. injection H as H.
    apply Join_empty in H; [|discriminate].
    destruct H as [->| ->].
    + left. now inversion Hrows.
    + right. inversion Hrows as [|c row tc' rows' Hc Hrest]; subst.
      inversion Hrest; subst. now exists c.
  - intros [->|[c [-> Hc]]]; [reflexivity|].
    unfold TableCommands.toSQL. simpl. now rewrite Hc.
Qed.



(** X5: the clause of every command of a list stands in the result for the
    list: no clause is lost or altered by the join. *)
Theorem result_holds_every_clause
  (tc : TableCommands.t) (c : command) (row : string) :
  In c tc -> toSQL c = Return row ->
  exists sql pre post,
    TableCommands.toSQL tc = Return sql /\
    sql = pre ++ row ++ post /\
    Contains sql row = true.
Proof.
  intros Hin Hrow.
  destruct (in_split c tc Hin) as [xs [ys ->]].
  destruct (rendered_exists xs) as [rx Hrx].
  destruct (rendered_exists ys) as [ry Hry].
  assert (Hall : rendered (xs ++ c :: ys)%list (rx ++ row :: ry)%list).
  { apply Forall2_app; [exact Hrx|]. now constructor. }
  destruct (Join_row rx ry row ", ") as [pre [post Hjoin]].
  exists (Join (rx ++ row :: ry)%list ", "), pre, post.
  split; [now apply toSQL_Join|]. split; [exact Hjoin|].
  rewrite Hjoin. apply Contains_app_r, HasPrefix_Contains, HasPrefix_append.
Qed.

Lemma result_holds_every_clause_witness :
  exists sql pre post,
    TableCommands.toSQL [DropColumn "a"; DropIndex "k"; DropForeign ""]
    = Return sql /\
    sql = pre ++ "DROP KEY `k`" ++ post /\
    Contains sql "DROP KEY `k`" = true.
Proof.
  apply (result_holds_every_clause
           [DropColumn "a"; DropIndex "k"; DropForeign ""] (DropIndex "k")).
  - right. left. reflexivity.
  - reflexivity.
Defined.

(** ** From a clause back to its command *)

Section Cancellation.

Lemma append_inj_l (a b c : string) : a ++ b = a ++ c -> b = c.
Proof.
  induction a as [|x a IH]; simpl; intros H; [exact H|].
  injection H as H. now apply IH.
Qed.

Lemma append_inj_r (a b c : string) : a ++ c = b ++ c -> a = b.
Proof.
  revert b. induction a as [|x a IH]; intros b H.
  - apply (f_equal String.length) in H. simpl in H.
    rewrite length_append in H. symmetry. apply length_zero_empty. lia.
  - destruct b as [|y b].
    + apply (f_equal String.length) in H. simpl in H.
      rewrite length_append in H. lia.
    + simpl in H. injection H as -> H. f_equal. now apply IH.
Qed.

Lemma has_byte_append (ch : ascii) (a b : string) :
  has_byte ch (a ++ b) = has_byte ch a || has_byte ch b.
Proof.
  induction a as [|x a IH]; simpl; [reflexivity|].
  now rewrite IH, orb_assoc.
Qed.

(** A text is cut at its first [ch] in one way only. *)
Lemma cut_at_byte (ch : ascii) (a a' r r' : string) :
  has_byte ch a = false -> has_byte ch a' = false ->
  a ++ String ch r = a' ++ String ch r' -> a = a' /\ r = r'.
Proof.
  revert a'. induction a as [|x a IH]; intros [|y a'] Ha Ha' H; simpl in *.
  - injection H as H. now split.
  - injection H as H _. subst y.
    rewrite Ascii.eqb_refl in Ha'. discriminate.
  - injection H as H _. subst x.
    rewrite Ascii.eqb_refl in Ha. discriminate.
  - injection H as -> H.
    apply orb_false_iff in Ha as [_ Ha]. apply orb_false_iff in Ha' as [_ Ha'].
    destruct (IH a' Ha Ha' H) as [-> ->]. now split.
Qed.

Lemma backtick_free_false (s : string) :
  backtick_free s = true -> has_byte "`" s = false.
Proof.
  unfold backtick_free. now destruct (has_byte "`" s).
Qed.

(** Columns without backticks are read back from their join. *)
Lemma Join_columns_inj (columns columns' : list string) :
  forallb backtick_free columns = true ->
  forallb backtick_free columns' = true ->
  columns <> [] -> columns' <> [] ->
  Join columns "`, `" = Join columns' "`, `" -> columns = columns'.
Proof.
  revert columns'.
  induction columns as [|col columns IH]; intros [|col' columns'] Hf Hf' Hn Hn' H;
    try congruence.
  simpl in Hf, Hf'.
  apply andb_true_iff in Hf as [Hc Hf]. apply andb_true_iff in Hf' as [Hc' Hf'].
  apply backtick_free_false in Hc, Hc'.
  destruct columns as [|col2 columns]; destruct columns' as [|col2' columns'].
  - simpl in H. now subst.
  - rewrite Join_cons in H. simpl in H. subst col.
    rewrite has_byte_append in Hc. simpl in Hc.
    now rewrite orb_true_r in Hc.
  - rewrite Join_cons in H. simpl in H. subst col'.
    rewrite has_byte_append in Hc'. simpl in Hc'.
    now rewrite orb_true_r in Hc'.
  - rewrite !Join_cons in H.
    change ("`, `" ++ Join (col2 :: columns) "`, `")
      with (String "`" (", `" ++ Join (col2 :: columns) "`, `")) in H.
    change ("`, `" ++ Join (col2' :: columns') "`, `")
      with (String "`" (", `" ++ Join (col2' :: columns') "`, `")) in H.
    apply cut_at_byte in H as [-> H]; [|assumption|assumption].
    apply append_inj_l in H.
    f_equal. apply IH; [assumption | assumption | discriminate | discriminate
                        | exact H].
Qed.

End Cancellation.

(** The clauses of the commands made of identifiers, when not empty. *)
Section Clauses.

Variable sql : string.
Hypothesis clause_given : sql <> "".

Lemma RenameColumn_clause (c : RenameColumnCommand.t) :
  RenameColumnCommand.toSQL c = Return sql ->
  sql = "RENAME COLUMN `" ++ RenameColumnCommand.Old c ++ "` TO `"
        ++ RenameColumnCommand.New c ++ "`".
Proof.
  unfold RenameColumnCommand.toSQL.
  destruct (_ || _); intros [= <-]; [congruence | reflexivity].
Qed.

Lemma DropColumn_clause (c : DropColumnCommand.t) :
  DropColumnCommand.toSQL c = Return sql -> sql = "DROP COLUMN `" ++ c ++ "`".
Proof.
  unfold DropColumnCommand.toSQL.
  destruct (_ =? _); intros [= <-]; [congruence | reflexivity].
Qed.

Lemma DropIndex_clause (c : DropIndexCommand.t) :
  DropIndexCommand.toSQL c = Return sql -> sql = "DROP KEY `" ++ c ++ "`".
Proof.
  unfold DropIndexCommand.toSQL.
  destruct (_ =? _); intros [= <-]; [congruence | reflexivity].
Qed.

Lemma DropForeign_clause (c : DropForeignCommand.t) :
  DropForeignCommand.toSQL c = Return sql ->
  sql = "DROP FOREIGN KEY `" ++ c ++ "`".
Proof.
  unfold DropForeignCommand.toSQL.
  destruct (_ =? _); intros [= <-]; [congruence | reflexivity].
Qed.

Lemma AddPrimaryIndex_clause (c : AddPrimaryIndexCommand.t) :
  AddPrimaryIndexCommand.toSQL c = Return sql ->
  sql = "ADD PRIMARY KEY (`" ++ c ++ "`)".
Proof.
  unfold AddPrimaryIndexCommand.toSQL.
  destruct (_ =? _); intros [= <-]; [congruence | reflexivity].
Qed.

Lemma DropPrimaryIndex_clause (c : DropPrimaryIndexCommand.t) :
  DropPrimaryIndexCommand.toSQL c = Return sql -> sql = "DROP PRIMARY KEY".
Proof using clause_given.
  intros [= <-]. reflexivity.
Qed.

Lemma AddIndex_clause (c : AddIndexCommand.t) :
  AddIndexCommand.toSQL c = Return sql ->
  AddIndexCommand.Columns c <> [] /\
  sql = "ADD KEY `" ++ AddIndexCommand.Name c ++ "` (`"
        ++ Join (AddIndexCommand.Columns c) "`, `" ++ "`)".
Proof.
  unfold AddIndexCommand.toSQL.
  destruct (AddIndexCommand.Columns c) as [|col columns].
  - rewrite orb_true_r. intros [= <-]. congruence.
  - destruct (_ || _); intros [= <-]; [congruence|].
    split; [discriminate | reflexivity].
Qed.

Lemma AddUniqueIndex_clause (c : AddUniqueIndexCommand.t) :
  AddUniqueIndexCommand.toSQL c = Return sql ->
  AddUniqueIndexCommand.Columns c <> [] /\
  sql = "ADD UNIQUE KEY `" ++ AddUniqueIndexCommand.Key c ++ "` (`"
        ++ Join (AddUniqueIndexCommand.Columns c) "`, `" ++ "`)".
Proof.
  unfold AddUniqueIndexCommand.toSQL.
  destruct (AddUniqueIndexCommand.Columns c) as [|col columns].
  - rewrite orb_true_r. intros [= <-]. congruence.
  - destruct (_ || _); intros [= <-]; [congruence|].
    split; [discriminate | reflexivity].
Qed.

End Clauses.

Section Readback.

(** An operand between the same texts is read back. *)
Lemma between_inj (pre post a b : string) :
  pre ++ a ++ post = pre ++ b ++ post -> a = b.
Proof.
  intros H. apply append_inj_l in H. now apply append_inj_r in H.
Qed.

Lemma renamed_inj (old new old' new' : string) :
  backtick_free old = true -> backtick_free old' = true ->
  "RENAME COLUMN `" ++ old ++ "` TO `" ++ new ++ "`"
  = "RENAME COLUMN `" ++ old' ++ "` TO `" ++ new' ++ "`" ->
  old = old' /\ new = new'.
Proof.
  intros Ho Ho' H. apply append_inj_l in H.
  change (old ++ String "`" (" TO `" ++ new ++ "`")
          = old' ++ String "`" (" TO `" ++ new' ++ "`")) in H.
  apply cut_at_byte in H as [-> H]; try now apply backtick_free_false.
  split; [reflexivity|]. now apply between_inj in H.
Qed.

Lemma indexed_inj (kw name name' : string) (columns columns' : list string) :
  backtick_free name && forallb backtick_free columns = true ->
  backtick_free name' && forallb backtick_free columns' = true ->
  columns <> [] -> columns' <> [] ->
  kw ++ name ++ "` (`" ++ Join columns "`, `" ++ "`)"
  = kw ++ name' ++ "` (`" ++ Join columns' "`, `" ++ "`)" ->
  name = name' /\ columns = columns'.
Proof.
  intros Hp Hp' Hn Hn' H.
  apply andb_true_iff in Hp as [Hname Hcols].
  apply andb_true_iff in Hp' as [Hname' Hcols'].
  apply append_inj_l in H.
  change (name ++ String "`" (" (`" ++ Join columns "`, `" ++ "`)")
          = name' ++ String "`" (" (`" ++ Join columns' "`, `" ++ "`)")) in H.
  apply cut_at_byte in H as [-> H]; try now apply backtick_free_false.
  split; [reflexivity|]. apply between_inj in H.
  now apply Join_columns_inj.
Qed.

End Readback.

(** The clause of a command made of identifiers, in place of the call. *)
Ltac clause_form H Hne :=
  first
    [ apply (RenameColumn_clause _ Hne) in H
    | apply (DropColumn_clause _ Hne) in H
    | apply (DropIndex_clause _ Hne) in H
    | apply (DropForeign_clause _ Hne) in H
    | apply (AddPrimaryIndex_clause _ Hne) in H
    | apply (DropPrimaryIndex_clause _ Hne) in H
    | apply (AddIndex_clause _ Hne) in H; destruct H as [? H]
    | apply (AddUniqueIndex_clause _ Hne) in H; destruct H as [? H] ].

(** X6: among the commands made of identifiers (rename and drop column, add
    and drop index, drop foreign key, add unique index, add and drop primary
    key), a clause that is not empty comes from one command only, provided the
    identifiers that the clause continues after (the old name of a rename, the
    name and the columns of an index) have no backtick: the command type and
    every identifier are read back from the clause. *)
Theorem clause_determines_command (c1 c2 : command) (sql : string) :
  plain_identifiers c1 = true -> plain_identifiers c2 = true ->
  toSQL c1 = Return sql -> toSQL c2 = Return sql -> sql <> "" ->
  c1 = c2.
Proof.
  intros P1 P2 H1 H2 Hne.
  destruct c1 as [c1|c1|c1|c1|c1|c1|c1|c1|c1|c1|c1|c1]; try discriminate P1;
    destruct c2 as [c2|c2|c2|c2|c2|c2|c2|c2|c2|c2|c2|c2]; try discriminate P2;
    simpl in H1, H2, P1, P2;
    clause_form H1 Hne; clause_form H2 Hne;
    rewrite H1 in H2; clear H1;
    try (simpl in H2; discriminate H2).
  - destruct c1 as [old new], c2 as [old' new']; simpl in *.
    destruct (renamed_inj _ _ _ _ P1 P2 H2) as [-> ->]. reflexivity.
  - f_equal. exact (between_inj "DROP COLUMN `" "`" c1 c2 H2).
  - destruct c1 as [name columns], c2 as [name' columns']; simpl in *.
    destruct (indexed_inj "ADD KEY `" _ _ _ _ P1 P2 H H0 H2) as [-> ->].
    reflexivity.
  - f_equal. exact (between_inj "DROP KEY `" "`" c1 c2 H2).
  - f_equal. exact (between_inj "DROP FOREIGN KEY `" "`" c1 c2 H2).
  - destruct c1 as [name columns], c2 as [name' columns']; simpl in *.
    destruct (indexed_inj "ADD UNIQUE KEY `" _ _ _ _ P1 P2 H H0 H2) as [-> ->].
    reflexivity.
  - f_equal. exact (between_inj "ADD PRIMARY KEY (`" "`)" c1 c2 H2).
  - now destruct c1, c2.
Qed.

Lemma clause_determines_command_witness :
  plain_identifiers (AddIndex (AddIndexCommand.mk "idx" ["a"; "b"])) = true /\
  toSQL (AddIndex (AddIndexCommand.mk "idx" ["a"; "b"]))
  = Return "ADD KEY `idx` (`a`, `b`)" /\
  AddIndex (AddIndexCommand.mk "idx" ["a"; "b"])
  = AddIndex (AddIndexCommand.mk "idx" ["a"; "b"]).
Proof.
  split; [reflexivity|]. split; [reflexivity|].
  apply (clause_determines_command _ _ "ADD KEY `idx` (`a`, `b`)").
  - reflexivity.
  - reflexivity.
  - reflexivity.
  - reflexivity.
  - discriminate.
Defined.

(** X7: identifiers are copied as they are given, a backtick inside one is
    not escaped, and two different commands can then render the same clause:
    a rename whose old name carries [` TO `] and the rename that has this text
    in its new name, an index on one column named with [`, `] inside and the
    index on the two columns. *)
Theorem identifiers_not_escaped (old mid new name a b : string) :
  old <> "" -> new <> "" -> name <> "" ->
  RenameColumnCommand.toSQL (RenameColumnCommand.mk (old ++ "` TO `" ++ mid) new)
  = Return ("RENAME COLUMN `" ++ old ++ "` TO `" ++ mid ++ "` TO `" ++ new ++ "`")
  /\
  RenameColumnCommand.toSQL (RenameColumnCommand.mk old (mid ++ "` TO `" ++ new))
  = Return ("RENAME COLUMN `" ++ old ++ "` TO `" ++ mid ++ "` TO `" ++ new ++ "`")
  /\
  AddIndexCommand.toSQL (AddIndexCommand.mk name [a ++ "`, `" ++ b])
  = Return ("ADD KEY `" ++ name ++ "` (`" ++ a ++ "`, `" ++ b ++ "`)") /\
  AddIndexCommand.toSQL (AddIndexCommand.mk name [a; b])
  = Return ("ADD KEY `" ++ name ++ "` (`" ++ a ++ "`, `" ++ b ++ "`)").
Proof.
  intros Hold Hnew Hname.
  split; [|split; [|split]].
  - unfold RenameColumnCommand.toSQL. simpl RenameColumnCommand.Old.
    simpl RenameColumnCommand.New.
    rewrite (eqb_empty_false new Hnew), orb_false_r.
    destruct old as [|x old]; [congruence|]. simpl. f_equal. f_equal.
    append_normal.
  - unfold RenameColumnCommand.toSQL. simpl RenameColumnCommand.Old.
    simpl RenameColumnCommand.New.
    rewrite (eqb_empty_false old Hold). simpl orb.
    destruct mid as [|x mid]; simpl; f_equal; f_equal; append_normal.
  - rewrite AddIndex_toSQL by (assumption || discriminate).
    f_equal. append_normal.
  - rewrite AddIndex_toSQL by (assumption || discriminate).
    rewrite Join_cons. f_equal. append_normal.
Qed.

Lemma identifiers_not_escaped_witness :
  RenameColumnCommand.toSQL (RenameColumnCommand.mk "a` TO `b" "c")
  = Return "RENAME COLUMN `a` TO `b` TO `c`" /\
  RenameColumnCommand.toSQL (RenameColumnCommand.mk "a" "b` TO `c")
  = Return "RENAME COLUMN `a` TO `b` TO `c`" /\
  AddIndexCommand.toSQL (AddIndexCommand.mk "idx" ["a`, `b"])
  = Return "ADD KEY `idx` (`a`, `b`)" /\
  AddIndexCommand.toSQL (AddIndexCommand.mk "idx" ["a"; "b"])
  = Return "ADD KEY `idx` (`a`, `b`)".
Proof.
  apply (identifiers_not_escaped "a" "b" "c" "idx" "a" "b"); discriminate.
Defined.

(** ** The order of the clauses *)

Lemma Join_row_then (before after : list string) (row sep : string) :
  after <> [] ->
  exists pre,
    Join (before ++ row :: after)%list sep
    = pre ++ row ++ sep ++ Join after sep.
Proof.
  intros Hafter. destruct after as [|row' after]; [congruence|].
  destruct before as [|b before].
  - exists "". simpl app. now rewrite Join_cons.
  - exists (Join (b :: before) sep ++ sep).
    rewrite Join_app by discriminate.
    now rewrite Join_cons, append_assoc.
Qed.

(** X8: the clauses stand in the result in the order of the commands: for a
    command that comes before another in the list, the result has the clause
    of the first, then a separator, then, at some place after it, the clause
    of the second. *)
Theorem clauses_in_list_order
  (xs ys zs : TableCommands.t) (c1 c2 : command) (row1 row2 : string) :
  toSQL c1 = Return row1 -> toSQL c2 = Return row2 ->
  exists pre mid post,
    TableCommands.toSQL (xs ++ c1 :: ys ++ c2 :: zs)%list
    = Return (pre ++ row1 ++ ", " ++ mid ++ row2 ++ post).
Proof.
  intros H1 H2.
  destruct (rendered_exists xs) as [rx Hrx].
  destruct (rendered_exists ys) as [ry Hry].
  destruct (rendered_exists zs) as [rz Hrz].
  assert (Hall : rendered (xs ++ c1 :: ys ++ c2 :: zs)%list
                          (rx ++ row1 :: ry ++ row2 :: rz)%list).
  { apply Forall2_app; [exact Hrx|]. constructor; [exact H1|].
    apply Forall2_app; [exact Hry|]. now constructor. }
  rewrite (toSQL_Join _ _ Hall).
  destruct (Join_row_then rx (ry ++ row2 :: rz)%list row1 ", ") as [pre Hpre].
  { destruct ry; discriminate. }
  destruct (Join_row ry rz row2 ", ") as [mid [post Hmid]].
  exists pre, mid, post. now rewrite Hpre, Hmid.
Qed.

Lemma clauses_in_list_order_witness :
  exists pre mid post,
    TableCommands.toSQL
      ([DropPrimaryIndex DropPrimaryIndexCommand.mk]
       ++ DropColumn "a" :: [DropColumn ""] ++ DropIndex "k" :: [])%list
    = Return (pre ++ "DROP COLUMN `a`" ++ ", " ++ mid ++ "DROP KEY `k`" ++ post).
Proof.
  apply (clauses_in_list_order
           [DropPrimaryIndex DropPrimaryIndexCommand.mk] [DropColumn ""] []
           (DropColumn "a") (DropIndex "k")); reflexivity.
Defined.
